(** * Z-score mean reversion: the signal engine and the position logic

    A shallow embedding of [project.py]: the strategy class
    [ZScoreMeanReversion] (its [init] and [next]), the helper [SMA] and the
    orchestration [run_backtest], together with as much of the rolling-window
    and backtesting libraries as the strategy observes.

    Numbers.  The program computes on IEEE floats.  They are modelled by
    rationals extended with the three special values the program can meet:
    [NaN] (a window that is not full, or [0/0]) and the two infinities (a
    non-zero number divided by zero).  Rounding is not modelled: the rolling
    mean and standard deviation of [init] are written with exact sums, and
    the square root is a parameter.  What is proved of the decision logic
    therefore does not rest on the exact value of an indicator: the theorems
    on the z-score line take the two indicator arrays as they come, whatever
    the library computed for them. *)

From Stdlib Require Import List Bool Arith ZArith QArith Qabs Lia Lqa.
From Stdlib Require Import Setoid Morphisms RelationClasses.
Import ListNotations.

Local Open Scope Q_scope.

(** ** Extended rationals standing for floats *)

Module Float.

Inductive fval : Type :=
  | NaN
  | NInf
  | Fin (q : Q)
  | PInf.

Definition is_nan (x : fval) : bool :=
  match x with NaN => true | _ => false end.

(** Sign of a rational as [Lt], [Eq] or [Gt] with respect to zero. *)
Definition Qsign (q : Q) : comparison := q ?= 0.

(** [x <= y] on floats: false as soon as one operand is [NaN]. *)
Definition fle (x y : fval) : bool :=
  match x, y with
  | NaN, _ | _, NaN => false
  | NInf, _ => true
  | _, PInf => true
  | Fin a, Fin b => Qle_bool a b
  | Fin _, NInf => false
  | PInf, _ => false
  end.

(** [x >= y] on floats, that is [y <= x]; false on [NaN] as well. *)
Definition fge (x y : fval) : bool := fle y x.

Definition fneg (x : fval) : fval :=
  match x with
  | NaN => NaN
  | NInf => PInf
  | Fin q => Fin (- q)
  | PInf => NInf
  end.

Definition fadd (x y : fval) : fval :=
  match x, y with
  | NaN, _ | _, NaN => NaN
  | PInf, NInf | NInf, PInf => NaN
  | PInf, _ | _, PInf => PInf
  | NInf, _ | _, NInf => NInf
  | Fin a, Fin b => Fin (a + b)
  end.

Definition fsub (x y : fval) : fval := fadd x (fneg y).

Definition fmul (x y : fval) : fval :=
  match x, y with
  | NaN, _ | _, NaN => NaN
  | Fin a, Fin b => Fin (a * b)
  | Fin a, PInf | PInf, Fin a =>
      match Qsign a with Eq => NaN | Gt => PInf | Lt => NInf end
  | Fin a, NInf | NInf, Fin a =>
      match Qsign a with Eq => NaN | Gt => NInf | Lt => PInf end
  | PInf, PInf | NInf, NInf => PInf
  | PInf, NInf | NInf, PInf => NInf
  end.

(** Division.  A finite number over zero is [NaN] when the numerator is zero
    and an infinity of the numerator's sign otherwise.  Divisors here are
    standard deviations, so a zero divisor is a positive zero. *)
Definition fdiv (x y : fval) : fval :=
  match x, y with
  | NaN, _ | _, NaN => NaN
  | Fin a, Fin b =>
      match Qsign b with
      | Eq => match Qsign a with Eq => NaN | Gt => PInf | Lt => NInf end
      | _ => Fin (a / b)
      end
  | Fin _, (PInf | NInf) => Fin 0
  | (PInf | NInf), (PInf | NInf) => NaN
  | PInf, Fin b => match Qsign b with Lt => NInf | _ => PInf end
  | NInf, Fin b => match Qsign b with Lt => PInf | _ => NInf end
  end.

End Float.
Export Float.

(** ** Strategy parameters (class attributes of [ZScoreMeanReversion])

    [lookback] is a window length, a natural number: the rolling-window
    library refuses a negative window by itself.  The thresholds are any
    rationals; the class sets 20, 2.0 and 0.5. *)

Record Params : Type := mkParams {
  lookback : nat;
  entry_z : Q;
  exit_z : Q
}.

Definition default_params : Params := mkParams 20 2 (1 # 2).

(** ** The broker as the strategy sees it

    The library keeps the list of open trades; [position] is their net size.
    Only the sign of a trade matters to the strategy, so a trade is modelled
    by its side and counts for one unit. *)

Inductive Side : Type := LongSide | ShortSide.

Definition Broker : Type := list Side.

Definition side_size (s : Side) : Z :=
  match s with LongSide => 1 | ShortSide => -1 end%Z.

Definition position_size (b : Broker) : Z :=
  fold_right (fun s acc => (side_size s + acc)%Z) 0%Z b.

Definition is_long (b : Broker) : bool := (0 <? position_size b)%Z.
Definition is_short (b : Broker) : bool := (position_size b <? 0)%Z.

Inductive Position : Type := Flat | Long | Short.

Definition position_of (b : Broker) : Position :=
  if is_long b then Long else if is_short b then Short else Flat.

(** The three calls [next] can make into the library. *)
Inductive Call : Type :=
  | PositionClose   (* self.position.close() *)
  | StrategyBuy     (* self.buy() *)
  | StrategySell.   (* self.sell() *)

Definition is_side (s t : Side) : bool :=
  match s, t with
  | LongSide, LongSide | ShortSide, ShortSide => true
  | _, _ => false
  end.

(** Effect of one call once the broker has filled it (hedging is off, the
    library's default): closing the position closes every open trade; an
    order first closes the open trades of the opposite side, oldest first,
    and the remainder opens a new trade on its own side. *)
Definition broker_fill (b : Broker) (c : Call) : Broker :=
  match c with
  | PositionClose => []
  | StrategyBuy => filter (is_side LongSide) b ++ [LongSide]
  | StrategySell => filter (is_side ShortSide) b ++ [ShortSide]
  end.

(** Orders placed during a bar are filled, in the order they were placed,
    before [next] runs on the following bar. *)
Definition broker_next (b : Broker) (calls : list Call) : Broker :=
  fold_left broker_fill calls b.

(** ** [ZScoreMeanReversion.next]

    The body is one [if]/[elif] chain; each branch makes one call.  The
    result is the list of calls made during the step, in order. *)
Definition next (P : Params) (b : Broker) (current_z : fval) : list Call :=
  if is_long b && fge current_z (Fin (- exit_z P)) then [PositionClose]
  else if is_short b && fle current_z (Fin (exit_z P)) then [PositionClose]
  else if fle current_z (Fin (- entry_z P)) && negb (is_long b) then [StrategyBuy]
  else if fge current_z (Fin (entry_z P)) && negb (is_short b) then [StrategySell]
  else [].

(** The five ways [next] can end, each with the guard that selects it. *)
Inductive next_case (P : Params) (b : Broker) (z : fval) : list Call -> Prop :=
  | case_exit_long :
      is_long b = true -> fge z (Fin (- exit_z P)) = true ->
      next_case P b z [PositionClose]
  | case_exit_short :
      is_long b = false -> is_short b = true -> fle z (Fin (exit_z P)) = true ->
      next_case P b z [PositionClose]
  | case_buy :
      is_long b = false ->
      is_short b && fle z (Fin (exit_z P)) = false ->
      fle z (Fin (- entry_z P)) = true ->
      next_case P b z [StrategyBuy]
  | case_sell :
      is_long b && fge z (Fin (- exit_z P)) = false ->
      is_short b = false ->
      fle z (Fin (- entry_z P)) && negb (is_long b) = false ->
      fge z (Fin (entry_z P)) = true ->
      next_case P b z [StrategySell]
  | case_hold :
      is_long b && fge z (Fin (- exit_z P)) = false ->
      is_short b && fle z (Fin (exit_z P)) = false ->
      fle z (Fin (- entry_z P)) && negb (is_long b) = false ->
      fge z (Fin (entry_z P)) && negb (is_short b) = false ->
      next_case P b z [].

(** ** Rolling windows (the part of the data-frame library [init] uses) *)

Definition sumQ (w : list Q) : Q := fold_right Qplus 0 w.

Definition Qnat (n : nat) : Q := inject_Z (Z.of_nat n).

Definition sq_dev (m x : Q) : Q := (x - m) * (x - m).

(** Sum of squared deviations of the window from [m]. *)
Definition ssq (m : Q) (w : list Q) : Q := sumQ (map (sq_dev m) w).

(** Mean of a window; not available on an empty window. *)
Definition window_mean (w : list Q) : fval :=
  match w with
  | [] => NaN
  | _ => Fin (sumQ w / Qnat (length w))
  end.

(** Sample variance (divisor [n - 1]); not available on fewer than two
    observations. *)
Definition window_var (w : list Q) : fval :=
  if (length w <=? 1)%nat then NaN
  else Fin (ssq (sumQ w / Qnat (length w)) w / (Qnat (length w) - 1)).

(** The [window] observations of [series] ending at index [t]. *)
Definition window_at (window t : nat) (series : list Q) : list Q :=
  firstn window (skipn (S t - window) series).

(** The aggregate of the window ending at [t], and [NaN] while fewer than
    [window] observations are available. *)
Definition rolling_at (window : nat) (agg : list Q -> fval) (series : list Q)
  (t : nat) : fval :=
  if (window <=? S t)%nat then agg (window_at window t series) else NaN.

(** [series.rolling(window).agg()]: one value per index of the series. *)
Definition rolling (window : nat) (agg : list Q -> fval) (series : list Q)
  : list fval :=
  map (rolling_at window agg series) (seq 0 (length series)).

(** [SMA(series, window)], the simple moving average. *)
Definition SMA (series : list Q) (window : nat) : list fval :=
  rolling window window_mean series.

(** Element-wise binary operation on two arrays. *)
Fixpoint map2 {A B C : Type} (f : A -> B -> C) (xs : list A) (ys : list B)
  : list C :=
  match xs, ys with
  | x :: xs', y :: ys' => f x y :: map2 f xs' ys'
  | _, _ => []
  end.

(** A square root on rationals that can be run: the integer square root of
    the reduced fraction scaled by [10^12], over the denominator scaled by
    [10^6].  It is one instance of the square-root parameter below. *)
Definition sqrt_approx (q : Q) : Q :=
  let r := Qred q in
  Z.sqrt (Qnum r * Zpos (Qden r) * 1000000000000) # (Qden r * 1000000).

(** ** What [init] stores on the strategy *)

Record Signals : Type := mkSignals {
  rolling_mean : list fval;
  rolling_std : list fval;
  z_scores : list fval;
  upper_band : list fval;
  lower_band : list fval
}.

(** One bar of a run: the broker as [next] sees it, the z-score it reads and
    the calls it makes. *)
Record Step : Type := mkStep {
  step_broker : Broker;
  step_z : fval;
  step_calls : list Call
}.

(** Index of the first value that is not [NaN], and 0 when there is none
    (the library's [isnan(...).argmin()]). *)
Fixpoint first_valid (ind : list fval) : nat :=
  match ind with
  | [] => 0
  | x :: rest =>
      if is_nan x
      then (if forallb is_nan rest then 0 else S (first_valid rest))%nat
      else 0%nat
  end.

(** The strategy's loop over a stream of z-scores: [next] on each bar, the
    broker filling the orders before the following bar. *)
Fixpoint simulate (P : Params) (b : Broker) (zs : list fval) : list Step :=
  match zs with
  | [] => []
  | z :: zs' =>
      let calls := next P b z in
      mkStep b z calls :: simulate P (broker_next b calls) zs'
  end.

(** The broker states along a run, from the initial one to the one left
    after the last bar. *)
Fixpoint states (P : Params) (b : Broker) (zs : list fval) : list Broker :=
  b :: match zs with
       | [] => []
       | z :: zs' => states P (broker_next b (next P b z)) zs'
       end.

(** The sequence of transitions of a run: the calls made at each bar. *)
Definition transitions (run : list Step) : list (list Call) :=
  map step_calls run.

(** A direct flip between the two sides. *)
Definition flip (p q : Position) : bool :=
  match p, q with
  | Long, Short | Short, Long => true
  | _, _ => false
  end.

(** No two consecutive positions of a trace are a flip. *)
Fixpoint no_flip (ps : list Position) : bool :=
  match ps with
  | p :: (q :: _) as rest => negb (flip p q) && no_flip rest
  | _ => true
  end.

(** ** Lines 30 to 34 of [init], on any two indicator arrays *)

(** The z-score of one bar: [(close - rolling_mean) / rolling_std]. *)
Definition z_score (close_t : Q) (mean_t std_t : fval) : fval :=
  fdiv (fsub (Fin close_t) mean_t) std_t.

(** Line 30, element by element. *)
Definition z_scores_of (close : list Q) (means stds : list fval) : list fval :=
  map2 fdiv (map2 fsub (map Fin close) means) stds.

(** What [init] stores, from the close column and the two indicators. *)
Definition signals_of (P : Params) (close : list Q) (means stds : list fval)
  : Signals :=
  let band := map (fmul (Fin (entry_z P))) stds in
  mkSignals means stds (z_scores_of close means stds)
            (map2 fadd means band) (map2 fsub means band).

(** ** The run as the program makes it *)

(** How a run can fail: the refusal of the data when the backtest is
    constructed, and the two Python exceptions met in [init]. *)
Inductive Error : Type := PreconditionFailure | AttributeError | RuntimeError.

(** Modelled from the spec: the constructor [Backtest(data, ...)] of the
    backtesting library, which is not under src/.  Section 7 of the
    specification: a missing or empty price series is a fatal precondition
    failure, rejected at construction.  Other data is accepted.  Only the
    [Close] column is read by the strategy; a data frame is modelled by that
    column. *)
Definition Backtest (data : option (list Q)) : Error + list Q :=
  match data with
  | None => inl PreconditionFailure
  | Some [] => inl PreconditionFailure
  | Some close => inr close
  end.

(** A column of prices as Python holds it.  The library hands the strategy
    [self.data.Close] as a NumPy array; [pd.Series(x)] makes a pandas series
    of it.  Only the series has the method [rolling]. *)
Inductive Column : Type :=
  | NdArray (xs : list Q)
  | PdSeries (xs : list Q).

Definition values (c : Column) : list Q :=
  match c with NdArray xs | PdSeries xs => xs end.

(** [pd.Series(x)]. *)
Definition pd_Series (x : Column) : Column := PdSeries (values x).

(** The attribute lookup [series.rolling]. *)
Definition get_rolling (series : Column) : Error + list Q :=
  match series with
  | PdSeries xs => inr xs
  | NdArray _ => inl AttributeError
  end.

(** [SMA(series, window)] as Python evaluates it: [series.rolling(window)]
    first, then [mean()]. *)
Definition SMA_call (series : Column) (window : nat) : Error + list fval :=
  match get_rolling series with
  | inl e => inl e
  | inr xs => inr (SMA xs window)
  end.

(** [self.I(func, ...)]: the library reports any exception of the indicator
    function as a RuntimeError. *)
Definition Strategy_I {A : Type} (r : Error + A) : Error + A :=
  match r with
  | inl _ => inl RuntimeError
  | inr a => inr a
  end.

Section Engine.

(** The square root behind the rolling standard deviation. *)
Variable sqrtQ : Q -> Q.

Definition fsqrt (x : fval) : fval :=
  match x with
  | NaN | NInf => NaN
  | Fin q => Fin (sqrtQ q)
  | PInf => PInf
  end.

(** Sample standard deviation of a window. *)
Definition window_std (w : list Q) : fval := fsqrt (window_var w).

(** [ZScoreMeanReversion.init] on the [Close] column. *)
Definition init (P : Params) (close : list Q) : Signals :=
  let rolling_mean := SMA close (lookback P) in
  let rolling_std := rolling (lookback P) window_std close in
  let z_scores := map2 fdiv (map2 fsub (map Fin close) rolling_mean) rolling_std in
  let band := map (fmul (Fin (entry_z P))) rolling_std in
  mkSignals rolling_mean rolling_std z_scores
            (map2 fadd rolling_mean band) (map2 fsub rolling_mean band).

(** The entry of [z_scores] at index [t] of a series. *)
Definition z_at (P : Params) (close : list Q) (t : nat) : fval :=
  fdiv (fsub (Fin (nth t close 0))
             (rolling_at (lookback P) window_mean close t))
       (rolling_at (lookback P) window_std close t).

(** First bar on which [next] is called: one past the bar where the declared
    indicators (the rolling mean and the rolling standard deviation) have
    both become available. *)
Definition start (s : Signals) : nat :=
  S (Nat.max (first_valid (rolling_mean s)) (first_valid (rolling_std s))).

(** The function given to [self.I] on line 27:
    [lambda x: pd.Series(x).rolling(self.lookback).std()]. *)
Definition std_call (window : nat) (x : Column) : Error + list fval :=
  match get_rolling (pd_Series x) with
  | inl e => inl e
  | inr xs => inr (rolling window window_std xs)
  end.

(** [init] as [Backtest.run] executes it on the library's data: the two
    indicators are declared in turn, line 26 giving [close] itself to [SMA]
    and line 27 wrapping it in [pd.Series]; the first exception ends [init]. *)
Definition init_call (P : Params) (close : Column) : Error + Signals :=
  match Strategy_I (SMA_call close (lookback P)) with
  | inl e => inl e
  | inr means =>
      match Strategy_I (std_call (lookback P) close) with
      | inl e => inl e
      | inr stds => inr (signals_of P (values close) means stds)
      end
  end.

(** [Backtest.run]: [init], then [next] on every bar from [start] on, from
    an empty broker.  [z_scores] is a plain attribute of the strategy, not an
    indicator declared with [self.I], so the library does not cut it at the
    current bar: [self.z_scores[-1]] is the z-score of the last bar of the
    series, on every bar. *)
Definition Backtest_run (P : Params) (close : list Q) : Error + list Step :=
  match init_call P (NdArray close) with
  | inl e => inl e
  | inr s =>
      inr (simulate P []
             (repeat (last (z_scores s) NaN) (length close - start s)))
  end.

(** [run_backtest], from the fetched data on: construct the backtest, run it. *)
Definition run_backtest (P : Params) (data : option (list Q))
  : Error + list Step :=
  match Backtest data with
  | inl e => inl e
  | inr close => Backtest_run P close
  end.

End Engine.


(** ** The transition rule as the specification words it

    States [Flat], [Long], [Short]; the input is the current state and the
    current z-score, which may be undefined.  The five rules are tried in
    order and the first that applies gives the outcome and the new state. *)

Inductive Outcome : Type := Hold | CloseOut | OpenLong | OpenShort.

Definition Position_eqb (p q : Position) : bool :=
  match p, q with
  | Flat, Flat | Long, Long | Short, Short => true
  | _, _ => false
  end.

Definition spec_transition (P : Params) (state : Position) (z : option Q)
  : Outcome * Position :=
  match z with
  | None => (Hold, state)
  | Some zt =>
      if Position_eqb state Long && Qle_bool (- exit_z P) zt
      then (CloseOut, Flat)
      else if Position_eqb state Short && Qle_bool zt (exit_z P)
      then (CloseOut, Flat)
      else if Qle_bool zt (- entry_z P) && negb (Position_eqb state Long)
      then (OpenLong, Long)
      else if Qle_bool (entry_z P) zt && negb (Position_eqb state Short)
      then (OpenShort, Short)
      else (Hold, state)
  end.

(** The float that carries a possibly undefined z-score. *)
Definition of_spec (z : option Q) : fval :=
  match z with
  | None => NaN
  | Some zt => Fin zt
  end.

(** The outcome of a step, read off the calls [next] made; there is none
    when a step makes several calls. *)
Definition outcome_of (calls : list Call) : option Outcome :=
  match calls with
  | [] => Some Hold
  | [PositionClose] => Some CloseOut
  | [StrategyBuy] => Some OpenLong
  | [StrategySell] => Some OpenShort
  | _ :: _ :: _ => None
  end.

(** The parameter values the specification calls a configuration error. *)
Definition invalid_params (P : Params) : bool :=
  (lookback P <? 2)%nat || Qle_bool (entry_z P) 0 || Qle_bool (exit_z P) 0.

(** ** Vocabulary for properties of whole runs *)

(** The broker that the bar following the bars [zs] sees. *)
Definition final_broker (P : Params) (b : Broker) (zs : list fval) : Broker :=
  fold_left (fun b' z => broker_next b' (next P b' z)) zs b.

(** Exchanging the two sides. *)
Definition mirror_side (s : Side) : Side :=
  match s with LongSide => ShortSide | ShortSide => LongSide end.

Definition mirror_broker (b : Broker) : Broker := map mirror_side b.

Definition mirror_call (c : Call) : Call :=
  match c with
  | PositionClose => PositionClose
  | StrategyBuy => StrategySell
  | StrategySell => StrategyBuy
  end.

(** ** Inputs used in the examples *)

Definition small_params : Params := mkParams 3 2 (1 # 2).

(** Thresholds the specification calls invalid. *)
Definition negative_entry_params : Params := mkParams 2 (-1) 0.

Definition flat_then_drop : list Q := [100; 100; 100; 100; 70].

Definition wobble : list Q := [100; 101; 103; 102; 102].

(** Two closes of the order of [2^-550].  Their squared deviations from the
    mean are [2^-1100], below [underflow_bound], half the smallest positive
    double: in double precision they are 0.0, and so is the rolling standard
    deviation of the pair. *)
Definition underflow_window : list Q := [1 # Pos.pow 2 550; 3 # Pos.pow 2 550].

Definition underflow_bound : Q := 1 # Pos.pow 2 1075.

(** * Properties *)

(** ** Comparisons and the broker *)

Lemma fle_nan_l (y : fval) : fle NaN y = false.
Proof. reflexivity. Qed.

Lemma fle_nan_r (x : fval) : fle x NaN = false.
Proof. destruct x; reflexivity. Qed.

Lemma fge_nan_l (y : fval) : fge NaN y = false.
Proof. apply fle_nan_r. Qed.

Lemma next_nan (P : Params) (b : Broker) : next P b NaN = [].
Proof.
  unfold next. rewrite !fge_nan_l, !fle_nan_l, !andb_false_r. reflexivity.
Qed.

Lemma long_not_short (b : Broker) : is_long b = true -> is_short b = false.
Proof. unfold is_long, is_short. intros H. apply Z.ltb_lt in H. apply Z.ltb_ge. lia. Qed.

Lemma position_size_cons (s : Side) (b : Broker) :
  position_size (s :: b) = (side_size s + position_size b)%Z.
Proof. reflexivity. Qed.

Lemma position_size_app (b c : Broker) :
  position_size (b ++ c) = (position_size b + position_size c)%Z.
Proof.
  induction b as [|s b IH]; [reflexivity|].
  rewrite <- app_comm_cons, !position_size_cons, IH. lia.
Qed.

Lemma position_size_filter_long (b : Broker) :
  (0 <= position_size (filter (is_side LongSide) b))%Z.
Proof.
  induction b as [|[|] b IH]; cbn [filter is_side];
    rewrite ?position_size_cons; cbn [side_size position_size fold_right]; lia.
Qed.

Lemma position_size_filter_short (b : Broker) :
  (position_size (filter (is_side ShortSide) b) <= 0)%Z.
Proof.
  induction b as [|[|] b IH]; cbn [filter is_side];
    rewrite ?position_size_cons; cbn [side_size position_size fold_right]; lia.
Qed.

Lemma position_of_close (b : Broker) :
  position_of (broker_fill b PositionClose) = Flat.
Proof. reflexivity. Qed.

Lemma is_long_buy (b : Broker) : is_long (broker_fill b StrategyBuy) = true.
Proof.
  unfold is_long, broker_fill. rewrite position_size_app.
  pose proof (position_size_filter_long b) as H.
  change (position_size [LongSide]) with 1%Z. apply Z.ltb_lt. lia.
Qed.

Lemma is_short_sell (b : Broker) : is_short (broker_fill b StrategySell) = true.
Proof.
  unfold is_short, broker_fill. rewrite position_size_app.
  pose proof (position_size_filter_short b) as H.
  change (position_size [ShortSide]) with (-1)%Z. apply Z.ltb_lt. lia.
Qed.

Lemma short_not_long (b : Broker) : is_short b = true -> is_long b = false.
Proof. unfold is_long, is_short. intros H. apply Z.ltb_lt in H. apply Z.ltb_ge. lia. Qed.

Lemma position_of_buy (b : Broker) :
  position_of (broker_fill b StrategyBuy) = Long.
Proof. unfold position_of. now rewrite is_long_buy. Qed.

Lemma position_of_sell (b : Broker) :
  position_of (broker_fill b StrategySell) = Short.
Proof.
  unfold position_of.
  now rewrite (short_not_long _ (is_short_sell b)), is_short_sell.
Qed.

Lemma position_of_long (b : Broker) :
  Position_eqb (position_of b) Long = is_long b.
Proof.
  unfold position_of. destruct (is_long b); [reflexivity|].
  destruct (is_short b); reflexivity.
Qed.

Lemma position_of_short (b : Broker) :
  Position_eqb (position_of b) Short = is_short b.
Proof.
  unfold position_of. destruct (is_long b) eqn:E.
  - rewrite (long_not_short b E). reflexivity.
  - destruct (is_short b); reflexivity.
Qed.

Lemma next_cases (P : Params) (b : Broker) (z : fval) :
  next_case P b z (next P b z).
Proof.
  unfold next.
  destruct (is_long b && fge z (Fin (- exit_z P))) eqn:E1.
  { apply andb_prop in E1 as [? ?]. now apply case_exit_long. }
  destruct (is_short b && fle z (Fin (exit_z P))) eqn:E2.
  { apply andb_prop in E2 as [Hs ?]. apply case_exit_short; auto.
    destruct (is_long b) eqn:El; [|reflexivity].
    rewrite (long_not_short b El) in Hs. discriminate. }
  destruct (fle z (Fin (- entry_z P)) && negb (is_long b)) eqn:E3.
  { apply andb_prop in E3 as [? Hl]. apply negb_true_iff in Hl.
    now apply case_buy. }
  destruct (fge z (Fin (entry_z P)) && negb (is_short b)) eqn:E4.
  { apply andb_prop in E4 as [? Hs]. apply negb_true_iff in Hs.
    now apply case_sell. }
  now apply case_hold.
Qed.

Lemma fge_fin_weaken (z : fval) (a c : Q) :
  a <= c -> fge z (Fin c) = true -> fge z (Fin a) = true.
Proof.
  intros Hac. destruct z as [| |q|]; cbn; try congruence.
  intros H. apply Qle_bool_iff in H. apply Qle_bool_iff. lra.
Qed.

Lemma fle_fin_weaken (z : fval) (a c : Q) :
  a <= c -> fle z (Fin a) = true -> fle z (Fin c) = true.
Proof.
  intros Hac. destruct z as [| |q|]; cbn; try congruence.
  intros H. apply Qle_bool_iff in H. apply Qle_bool_iff. lra.
Qed.

Lemma broker_next_nil (b : Broker) : broker_next b [] = b.
Proof. reflexivity. Qed.

Lemma broker_next_one (b : Broker) (c : Call) :
  broker_next b [c] = broker_fill b c.
Proof. reflexivity. Qed.

Lemma filter_long_not_long (b : Broker) :
  (length b <= 1)%nat -> is_long b = false -> filter (is_side LongSide) b = [].
Proof.
  destruct b as [|[|] [|s b]]; cbn; intros; try reflexivity; try discriminate; lia.
Qed.

Lemma filter_short_not_short (b : Broker) :
  (length b <= 1)%nat -> is_short b = false -> filter (is_side ShortSide) b = [].
Proof.
  destruct b as [|[|] [|s b]]; cbn; intros; try reflexivity; try discriminate; lia.
Qed.

(** The guard [not is_long] (resp. [not is_short]) keeps the number of open
    trades at one: an order is placed only when no trade of its side is open. *)
Lemma step_one_trade (P : Params) (b : Broker) (z : fval) :
  (length b <= 1)%nat -> (length (broker_next b (next P b z)) <= 1)%nat.
Proof.
  intros Hb. destruct (next_cases P b z) as [| |Hl _ _|_ Hs _ _|];
    rewrite ?broker_next_one, ?broker_next_nil; cbn [broker_fill length]; try lia.
  - rewrite (filter_long_not_long b Hb Hl). cbn. lia.
  - rewrite (filter_short_not_short b Hb Hs). cbn. lia.
Qed.

(** With [- exit_z <= entry_z] the exit guard of an open position covers the
    entry guard of the opposite side, so no step flips the position. *)
Lemma step_no_flip (P : Params) (b : Broker) (z : fval) :
  0 <= entry_z P + exit_z P ->
  flip (position_of b) (position_of (broker_next b (next P b z))) = false.
Proof.
  intros HP.
  destruct (next_cases P b z) as [| |Hl Hx Hz|Hx Hs _ Hz|];
    rewrite ?broker_next_one, ?broker_next_nil.
  - rewrite position_of_close. destruct (position_of b); reflexivity.
  - rewrite position_of_close. destruct (position_of b); reflexivity.
  - rewrite position_of_buy. unfold position_of. rewrite Hl.
    destruct (is_short b) eqn:Es; [|reflexivity]. rewrite andb_true_l in Hx.
    assert (Hw : fle z (Fin (exit_z P)) = true)
      by (apply (fle_fin_weaken z (- entry_z P)); [lra | exact Hz]).
    congruence.
  - rewrite position_of_sell. unfold position_of. rewrite Hs.
    destruct (is_long b) eqn:El; [|reflexivity]. rewrite andb_true_l in Hx.
    assert (Hw : fge z (Fin (- exit_z P)) = true)
      by (apply (fge_fin_weaken z (- exit_z P) (entry_z P)); [lra | exact Hz]).
    congruence.
  - destruct (position_of b); reflexivity.
Qed.

Lemma states_one_trade (P : Params) (zs : list fval) :
  forall b, (length b <= 1)%nat ->
  Forall (fun b' => (length b' <= 1)%nat) (states P b zs).
Proof.
  induction zs as [|z zs IH]; intros b Hb; cbn [states].
  - constructor; [exact Hb | constructor].
  - constructor; [exact Hb|]. apply IH. now apply step_one_trade.
Qed.

Lemma states_head (P : Params) (b : Broker) (zs : list fval) :
  exists rest, states P b zs = b :: rest.
Proof. destruct zs; cbn [states]; eauto. Qed.

Lemma states_no_flip (P : Params) (zs : list fval) :
  0 <= entry_z P + exit_z P ->
  forall b, no_flip (map position_of (states P b zs)) = true.
Proof.
  intros HP. induction zs as [|z zs IH]; intros b; cbn [states].
  - reflexivity.
  - specialize (IH (broker_next b (next P b z))).
    destruct (states_head P (broker_next b (next P b z)) zs) as [rest E].
    rewrite E in *. cbn [map no_flip] in *.
    rewrite (step_no_flip P b z HP). exact IH.
Qed.

(** C1.  Along every run (whatever the stream of z-scores, hence for every
    price series run from an empty broker) at most one trade is open at every
    bar, so the position is one of Flat, Long, Short, and no two consecutive
    positions are Long then Short or Short then Long: the opposite side is
    only reached through Flat.  The thresholds are assumed to satisfy
    [0 <= entry_z + exit_z], which the defaults 2.0 and 0.5 and all positive
    thresholds do. *)
Theorem at_most_one_open_position (P : Params) :
  0 <= entry_z P + exit_z P ->
  (forall zs : list fval,
      Forall (fun b => (length b <= 1)%nat) (states P [] zs)
      /\ no_flip (map position_of (states P [] zs)) = true)
  /\ (forall (sqrtQ : Q -> Q) (close : list Q),
        let s := init sqrtQ P close in
        let run := states P [] (skipn (start s) (z_scores s)) in
        Forall (fun b => (length b <= 1)%nat) run
        /\ no_flip (map position_of run) = true).
Proof.
  intros HP. split.
  - intros zs. split; [apply states_one_trade; cbn; lia | now apply states_no_flip].
  - intros sqrtQ close s run. subst run.
    split; [apply states_one_trade; cbn; lia | now apply states_no_flip].
Qed.

(** C2.  On every state and every z-score, defined or not, [next] and the
    broker do what the ranked rule list of the specification says: the same
    single outcome (close, open long, open short or hold) and the same new
    position. *)
Theorem next_refines_spec_transition (P : Params) (b : Broker) (z : option Q) :
  outcome_of (next P b (of_spec z))
    = Some (fst (spec_transition P (position_of b) z))
  /\ position_of (broker_next b (next P b (of_spec z)))
    = snd (spec_transition P (position_of b) z).
Proof.
  destruct z as [zt|]; cbn [of_spec spec_transition].
  - unfold next, fge, fle. rewrite position_of_long, position_of_short.
    destruct (is_long b && Qle_bool (- exit_z P) zt);
      [split; [reflexivity | apply position_of_close]|].
    destruct (is_short b && Qle_bool zt (exit_z P));
      [split; [reflexivity | apply position_of_close]|].
    destruct (Qle_bool zt (- entry_z P) && negb (is_long b));
      [split; [reflexivity | apply position_of_buy]|].
    destruct (Qle_bool (entry_z P) zt && negb (is_short b));
      [split; [reflexivity | apply position_of_sell]|].
    split; reflexivity.
  - rewrite next_nan. split; reflexivity.
Qed.

(** C8.  A step makes at most one call; when that call closes the position,
    the step places no order, and the broker is left without any open trade
    before the following bar. *)
Theorem close_and_open_exclusive (P : Params) (b : Broker) (z : fval) :
  (length (next P b z) <= 1)%nat
  /\ (In PositionClose (next P b z) ->
      ~ In StrategyBuy (next P b z)
      /\ ~ In StrategySell (next P b z)
      /\ next P b z = [PositionClose]
      /\ broker_next b (next P b z) = []).
Proof.
  destruct (next_cases P b z); cbn; (split; [lia|]); intros Hin;
    repeat split; try reflexivity; intuition discriminate.
Qed.

(** C9.  [next] is total, and on every broker state and every float, the
    special values included, a step has exactly one outcome among close,
    open long, open short and hold. *)
Theorem next_total_exclusive (P : Params) (b : Broker) (z : fval) :
  exists! o : Outcome, outcome_of (next P b z) = Some o.
Proof.
  destruct (next_cases P b z); cbn;
    eexists; (split; [reflexivity | intros o' Ho; congruence]).
Qed.

(** ** Arrays and windows *)

Lemma map2_map_map {A B C D : Type} (f : B -> C -> D) (g : A -> B) (h : A -> C)
  (l : list A) :
  map2 f (map g l) (map h l) = map (fun a => f (g a) (h a)) l.
Proof. induction l as [|a l IH]; cbn; [reflexivity | now rewrite IH]. Qed.

Lemma map_nth_seq (close : list Q) :
  map Fin close = map (fun t => Fin (nth t close 0)) (seq 0 (length close)).
Proof.
  induction close as [|x close IH]; [reflexivity|].
  cbn [length seq map nth]. f_equal.
  rewrite <- seq_shift, map_map. exact IH.
Qed.

Lemma window_at_length (L t : nat) (series : list Q) :
  (L <= S t)%nat -> (t < length series)%nat ->
  length (window_at L t series) = L.
Proof.
  intros H1 H2. unfold window_at. rewrite length_firstn, length_skipn. lia.
Qed.

(** ** Sums over a window *)

Lemma Qnat_S (n : nat) : Qnat (S n) == Qnat n + 1.
Proof.
  unfold Qnat. rewrite Nat2Z.inj_succ, <- Z.add_1_r, inject_Z_plus. reflexivity.
Qed.

Lemma Qnat_pos (n : nat) : (1 <= n)%nat -> 0 < Qnat n.
Proof.
  intros H. unfold Qnat. change 0 with (inject_Z 0). rewrite <- Zlt_Qlt. lia.
Qed.

Lemma Qnat_gt_1 (n : nat) : (2 <= n)%nat -> 0 < Qnat n - 1.
Proof.
  intros H. destruct n as [|n]; [lia|]. rewrite Qnat_S.
  assert (0 < Qnat n) by (apply Qnat_pos; lia). lra.
Qed.

Lemma sq_dev_nonneg (m x : Q) : 0 <= sq_dev m x.
Proof.
  unfold sq_dev. destruct (Qlt_le_dec (x - m) 0) as [Hneg|Hpos].
  - setoid_replace ((x - m) * (x - m)) with ((m - x) * (m - x)) by ring.
    apply Qmult_le_0_compat; lra.
  - now apply Qmult_le_0_compat.
Qed.

Lemma ssq_cons (m x : Q) (w : list Q) : ssq m (x :: w) = sq_dev m x + ssq m w.
Proof. reflexivity. Qed.

Lemma ssq_nonneg (m : Q) (w : list Q) : 0 <= ssq m w.
Proof.
  induction w as [|x w IH]; [cbn; lra|].
  rewrite ssq_cons. pose proof (sq_dev_nonneg m x). lra.
Qed.

Lemma Qsign_eq (q : Q) : Qsign q = Eq <-> q == 0.
Proof. unfold Qsign. symmetry. apply Qeq_alt. Qed.

Lemma fdiv_nan_r (x : fval) : fdiv x NaN = NaN.
Proof. destruct x; reflexivity. Qed.

Lemma fdiv_zero_zero (a s : Q) : a == 0 -> s == 0 -> fdiv (Fin a) (Fin s) = NaN.
Proof.
  intros Ha Hs. cbn [fdiv].
  apply Qsign_eq in Ha, Hs. now rewrite Hs, Ha.
Qed.

Section EngineFacts.

Variable sqrtQ : Q -> Q.

Lemma init_z_scores (P : Params) (close : list Q) :
  z_scores (init sqrtQ P close)
  = map (z_at sqrtQ P close) (seq 0 (length close)).
Proof.
  unfold init, SMA, rolling. cbn [z_scores].
  rewrite map_nth_seq, !map2_map_map. reflexivity.
Qed.

Lemma rolling_nth_error (L : nat) (agg : list Q -> fval) (series : list Q)
  (t : nat) (v : fval) :
  nth_error (rolling L agg series) t = Some v ->
  (t < length series)%nat /\ rolling_at L agg series t = v.
Proof.
  unfold rolling. intros H.
  assert (Ht : (t < length series)%nat).
  { assert (Hn : nth_error (map (rolling_at L agg series) (seq 0 (length series))) t <> None)
      by congruence.
    apply nth_error_Some in Hn. now rewrite length_map, length_seq in Hn. }
  split; [exact Ht|].
  rewrite nth_error_map, nth_error_seq in H.
  destruct (Nat.ltb_spec t (length series)); [|lia].
  cbn in H. congruence.
Qed.

Lemma rolling_nth_error_at (L : nat) (agg : list Q -> fval) (series : list Q)
  (t : nat) :
  (t < length series)%nat ->
  nth_error (rolling L agg series) t = Some (rolling_at L agg series t).
Proof.
  intros Ht. unfold rolling. rewrite nth_error_map, nth_error_seq.
  destruct (Nat.ltb_spec t (length series)); [reflexivity | lia].
Qed.

Lemma z_scores_nth_error (P : Params) (close : list Q) (t : nat) (z : fval) :
  nth_error (z_scores (init sqrtQ P close)) t = Some z ->
  (t < length close)%nat /\ z_at sqrtQ P close t = z.
Proof.
  rewrite init_z_scores. intros H.
  assert (Ht : (t < length close)%nat).
  { assert (Hn : nth_error (map (z_at sqrtQ P close) (seq 0 (length close))) t <> None)
      by congruence.
    apply nth_error_Some in Hn. now rewrite length_map, length_seq in Hn. }
  split; [exact Ht|].
  rewrite nth_error_map, nth_error_seq in H.
  destruct (Nat.ltb_spec t (length close)); [|lia].
  cbn in H. congruence.
Qed.

Lemma window_std_cases (w : list Q) :
  ((length w <= 1)%nat /\ window_std sqrtQ w = NaN)
  \/ ((2 <= length w)%nat
      /\ window_std sqrtQ w
         = Fin (sqrtQ (ssq (sumQ w / Qnat (length w)) w / (Qnat (length w) - 1)))).
Proof.
  unfold window_std, window_var.
  destruct (Nat.leb_spec (length w) 1); [left | right]; split;
    try reflexivity; lia.
Qed.

Lemma z_at_before_window (P : Params) (close : list Q) (t : nat) :
  (S t < lookback P)%nat -> z_at sqrtQ P close t = NaN.
Proof.
  intros H. unfold z_at, rolling_at.
  destruct (Nat.leb_spec (lookback P) (S t)); [lia|]. apply fdiv_nan_r.
Qed.

Lemma z_at_short_lookback (P : Params) (close : list Q) (t : nat) :
  (lookback P < 2)%nat -> (t < length close)%nat -> z_at sqrtQ P close t = NaN.
Proof.
  intros HL Ht. unfold z_at, rolling_at.
  destruct (Nat.leb_spec (lookback P) (S t)); [|apply fdiv_nan_r].
  destruct (window_std_cases (window_at (lookback P) t close)) as [[_ E]|[Hl _]].
  - rewrite E. apply fdiv_nan_r.
  - rewrite window_at_length in Hl by assumption. lia.
Qed.

End EngineFacts.

(** ** [next] from a flat position *)

Lemma next_flat_fin (P : Params) (q : Q) :
  next P [] (Fin q)
  = if Qle_bool q (- entry_z P) then [StrategyBuy]
    else if Qle_bool (entry_z P) q then [StrategySell] else [].
Proof.
  unfold next, fge, fle. change (is_long []) with false.
  change (is_short []) with false. cbn [andb negb].
  rewrite !andb_true_r. reflexivity.
Qed.

(** ** Examples *)

(** Without [0 <= entry_z + exit_z] a long position can be turned into a
    short one in a single step. *)
Example flip_with_negative_entry :
  map position_of (states negative_entry_params [] [Fin (1 # 2); Fin (- (1 # 2))])
  = [Flat; Long; Short].
Proof. vm_compute. reflexivity. Qed.

(** ** Instances on concrete inputs *)

Lemma at_most_one_open_position_witness :
  0 <= entry_z default_params + exit_z default_params
  /\ Forall (fun b => (length b <= 1)%nat)
            (states default_params [] [Fin (-3); Fin 0; Fin 3; NaN; Fin 0])
  /\ no_flip (map position_of
                 (states default_params [] [Fin (-3); Fin 0; Fin 3; NaN; Fin 0]))
     = true.
Proof.
  assert (H : 0 <= entry_z default_params + exit_z default_params)
    by (vm_compute; discriminate).
  split; [exact H|].
  exact (proj1 (at_most_one_open_position default_params H)
               [Fin (-3); Fin 0; Fin 3; NaN; Fin 0]).
Defined.

Lemma close_and_open_exclusive_witness :
  In PositionClose (next default_params [LongSide] (Fin 0))
  /\ ~ In StrategyBuy (next default_params [LongSide] (Fin 0))
  /\ ~ In StrategySell (next default_params [LongSide] (Fin 0))
  /\ next default_params [LongSide] (Fin 0) = [PositionClose]
  /\ broker_next [LongSide] (next default_params [LongSide] (Fin 0)) = [].
Proof.
  assert (Hin : In PositionClose (next default_params [LongSide] (Fin 0)))
    by (left; reflexivity).
  split; [exact Hin|].
  exact (proj2 (close_and_open_exclusive default_params [LongSide] (Fin 0)) Hin).
Defined.

(** * Further properties of the strategy *)

(** ** [next]: what a step never does *)

(** X1.  A step never adds to an open position and never closes a flat one:
    no buy while long, no sell while short, no close while flat. *)
Theorem next_never_adds_to_position (P : Params) (b : Broker) (z : fval) :
  (is_long b = true -> ~ In StrategyBuy (next P b z))
  /\ (is_short b = true -> ~ In StrategySell (next P b z))
  /\ (position_of b = Flat -> ~ In PositionClose (next P b z)).
Proof.
  unfold position_of.
  destruct (next_cases P b z) as [Hl _|Hl Hs _|Hl _ _|_ Hs _ _|_ _ _ _];
    cbn [In]; repeat split; intros H; try rewrite Hl in *; try rewrite Hs in *;
    try discriminate; intuition discriminate.
Qed.

(** ** [next]: entering and leaving a position *)

Lemma entry_guards_disjoint (e : Q) (z : fval) :
  0 < e -> fle z (Fin (- e)) = true -> fge z (Fin e) = true -> False.
Proof.
  intros He. destruct z as [| |q|]; cbn; try discriminate.
  intros H1 H2. apply Qle_bool_iff in H1, H2. lra.
Qed.

Lemma fge_false_below (z : fval) (a c : Q) :
  a < c -> fle z (Fin a) = true -> fge z (Fin c) = false.
Proof.
  intros Hac. destruct z as [| |q|]; cbn; try discriminate; try reflexivity.
  intros H. apply Qle_bool_iff in H.
  destruct (Qle_bool c q) eqn:E; [|reflexivity].
  apply Qle_bool_iff in E. lra.
Qed.

Lemma fle_false_above (z : fval) (a c : Q) :
  a < c -> fge z (Fin c) = true -> fle z (Fin a) = false.
Proof.
  intros Hac. destruct z as [| |q|]; cbn; try discriminate; try reflexivity.
  intros H. apply Qle_bool_iff in H.
  destruct (Qle_bool q a) eqn:E; [|reflexivity].
  apply Qle_bool_iff in E. lra.
Qed.

Lemma next_long (P : Params) (b : Broker) (z : fval) :
  is_long b = true ->
  next P b z
  = if fge z (Fin (- exit_z P)) then [PositionClose]
    else if fge z (Fin (entry_z P)) then [StrategySell] else [].
Proof.
  intros Hl. unfold next. rewrite Hl, (long_not_short b Hl).
  cbn [andb negb]. rewrite !andb_false_r, !andb_true_r. reflexivity.
Qed.

Lemma next_short (P : Params) (b : Broker) (z : fval) :
  is_short b = true ->
  next P b z
  = if fle z (Fin (exit_z P)) then [PositionClose]
    else if fle z (Fin (- entry_z P)) then [StrategyBuy] else [].
Proof.
  intros Hs. unfold next. rewrite Hs, (short_not_long b Hs).
  cbn [andb negb]. rewrite !andb_false_r, !andb_true_r.
  destruct (fle z (Fin (exit_z P))); [reflexivity|].
  destruct (fle z (Fin (- entry_z P))); reflexivity.
Qed.

Lemma simulate_app (P : Params) (zs zs' : list fval) :
  forall b,
    simulate P b (zs ++ zs')
    = simulate P b zs ++ simulate P (final_broker P b zs) zs'.
Proof.
  induction zs as [|z zs IH]; intros b; [reflexivity|].
  cbn [app simulate final_broker fold_left]. now rewrite IH.
Qed.

Lemma simulate_hold (P : Params) (b : Broker) (zs : list fval) :
  Forall (fun z => next P b z = []) zs ->
  transitions (simulate P b zs) = repeat [] (length zs)
  /\ final_broker P b zs = b.
Proof.
  induction 1 as [|z zs Hz _ [IH1 IH2]]; [split; reflexivity|].
  cbn [simulate transitions map step_calls length repeat final_broker fold_left].
  rewrite Hz, broker_next_nil. unfold transitions in IH1.
  fold (final_broker P b zs). now rewrite IH1, IH2.
Qed.

(** X3.  A long position is held through every bar whose z-score is below
    [- exit_z] or undefined, and closed on the first bar whose z-score
    reaches [- exit_z]; the run then goes on from a broker without trades.
    A short position likewise, with [exit_z] and the opposite comparisons. *)
Theorem position_held_until_exit (P : Params) (b : Broker)
  (zs : list fval) (z' : fval) (rest : list fval) :
  0 <= entry_z P + exit_z P ->
  (is_long b = true ->
   Forall (fun z => fge z (Fin (- exit_z P)) = false) zs ->
   fge z' (Fin (- exit_z P)) = true ->
   transitions (simulate P b (zs ++ z' :: rest))
   = repeat [] (length zs) ++ [PositionClose] :: transitions (simulate P [] rest))
  /\ (is_short b = true ->
      Forall (fun z => fle z (Fin (exit_z P)) = false) zs ->
      fle z' (Fin (exit_z P)) = true ->
      transitions (simulate P b (zs ++ z' :: rest))
      = repeat [] (length zs) ++ [PositionClose] :: transitions (simulate P [] rest)).
Proof.
  intros Hsum. split; intros Hb Hzs Hz'.
  - assert (Hh : Forall (fun z => next P b z = []) zs).
    { eapply Forall_impl; [|exact Hzs]. intros z Hz. cbv beta in Hz |- *.
      rewrite (next_long P b z Hb), Hz.
      destruct (fge z (Fin (entry_z P))) eqn:E; [|reflexivity].
      rewrite (fge_fin_weaken z (- exit_z P) (entry_z P)) in Hz by (lra || exact E).
      discriminate. }
    destruct (simulate_hold P b zs Hh) as [Ht Hf].
    rewrite simulate_app. unfold transitions in *. rewrite map_app, Ht, Hf.
    cbn [simulate map step_calls]. now rewrite (next_long P b z' Hb), Hz'.
  - assert (Hh : Forall (fun z => next P b z = []) zs).
    { eapply Forall_impl; [|exact Hzs]. intros z Hz. cbv beta in Hz |- *.
      rewrite (next_short P b z Hb), Hz.
      destruct (fle z (Fin (- entry_z P))) eqn:E; [|reflexivity].
      rewrite (fle_fin_weaken z (- entry_z P) (exit_z P)) in Hz by (lra || exact E).
      discriminate. }
    destruct (simulate_hold P b zs Hh) as [Ht Hf].
    rewrite simulate_app. unfold transitions in *. rewrite map_app, Ht, Hf.
    cbn [simulate map step_calls]. now rewrite (next_short P b z' Hb), Hz'.
Qed.

(** ** Long and short are treated alike *)

Lemma position_size_mirror (b : Broker) :
  position_size (mirror_broker b) = (- position_size b)%Z.
Proof.
  induction b as [|s b IH]; [reflexivity|].
  cbn [mirror_broker map]. fold (mirror_broker b).
  rewrite !position_size_cons, IH. destruct s; cbn [mirror_side side_size]; lia.
Qed.

Lemma is_long_mirror (b : Broker) : is_long (mirror_broker b) = is_short b.
Proof.
  unfold is_long, is_short. rewrite position_size_mirror.
  destruct (Z.ltb_spec 0 (- position_size b)), (Z.ltb_spec (position_size b) 0);
    try reflexivity; lia.
Qed.

Lemma is_short_mirror (b : Broker) : is_short (mirror_broker b) = is_long b.
Proof.
  unfold is_long, is_short. rewrite position_size_mirror.
  destruct (Z.ltb_spec (- position_size b) 0), (Z.ltb_spec 0 (position_size b));
    try reflexivity; lia.
Qed.

Lemma Qle_bool_opp (a c : Q) : Qle_bool (- a) (- c) = Qle_bool c a.
Proof.
  apply eq_true_iff_eq. rewrite !Qle_bool_iff. split; intros; lra.
Qed.

Lemma Qle_bool_opp_l (a c : Q) : Qle_bool (- a) c = Qle_bool (- c) a.
Proof.
  apply eq_true_iff_eq. rewrite !Qle_bool_iff. split; intros; lra.
Qed.

Lemma Qle_bool_opp_r (a c : Q) : Qle_bool a (- c) = Qle_bool c (- a).
Proof.
  apply eq_true_iff_eq. rewrite !Qle_bool_iff. split; intros; lra.
Qed.

Lemma fle_fneg (z : fval) (a : Q) :
  fle (fneg z) (Fin (- a)) = fge z (Fin a)
  /\ fge (fneg z) (Fin (- a)) = fle z (Fin a)
  /\ fle (fneg z) (Fin a) = fge z (Fin (- a))
  /\ fge (fneg z) (Fin a) = fle z (Fin (- a)).
Proof.
  destruct z as [| |q|]; cbn; repeat split; try reflexivity.
  - apply Qle_bool_opp.
  - apply Qle_bool_opp.
  - apply Qle_bool_opp_l.
  - apply Qle_bool_opp_r.
Qed.

Lemma next_mirror (P : Params) (b : Broker) (z : fval) :
  0 < entry_z P ->
  next P (mirror_broker b) (fneg z) = map mirror_call (next P b z).
Proof.
  intros He. unfold next. rewrite is_long_mirror, is_short_mirror.
  destruct (fle_fneg z (exit_z P)) as (_ & -> & -> & _).
  destruct (fle_fneg z (entry_z P)) as (-> & _ & _ & ->).
  destruct (is_long b) eqn:El.
  - rewrite (long_not_short b El). cbn [andb negb]. rewrite !andb_false_r, !andb_true_r.
    destruct (fge z (Fin (- exit_z P))); [reflexivity|].
    destruct (fge z (Fin (entry_z P))); reflexivity.
  - destruct (is_short b) eqn:Es; cbn [andb negb]; rewrite ?andb_false_r, ?andb_true_r.
    + destruct (fle z (Fin (exit_z P))); [reflexivity|].
      destruct (fle z (Fin (- entry_z P))); reflexivity.
    + destruct (fge z (Fin (entry_z P))) eqn:E4,
               (fle z (Fin (- entry_z P))) eqn:E3; try reflexivity.
      exfalso. exact (entry_guards_disjoint _ z He E3 E4).
Qed.

Lemma broker_fill_mirror (b : Broker) (c : Call) :
  broker_fill (mirror_broker b) (mirror_call c) = mirror_broker (broker_fill b c).
Proof.
  destruct c; cbn [mirror_call broker_fill]; [reflexivity| |];
    unfold mirror_broker; rewrite map_app; cbn [map mirror_side]; f_equal;
    induction b as [|[|] b IH]; cbn; rewrite ?IH; reflexivity.
Qed.

Lemma broker_next_mirror (calls : list Call) :
  forall b,
    broker_next (mirror_broker b) (map mirror_call calls)
    = mirror_broker (broker_next b calls).
Proof.
  unfold broker_next. induction calls as [|c calls IH]; intros b; [reflexivity|].
  cbn [map fold_left]. now rewrite broker_fill_mirror, IH.
Qed.

(** X5.  With a positive entry threshold the strategy treats the two sides
    alike: on the mirrored broker and the negated z-scores every step makes
    the mirrored call (buy for sell, sell for buy, close for close) and the
    broker states stay mirror images. *)
Theorem long_short_symmetry (P : Params) (zs : list fval) :
  0 < entry_z P ->
  forall b : Broker,
    transitions (simulate P (mirror_broker b) (map fneg zs))
    = map (map mirror_call) (transitions (simulate P b zs))
    /\ map step_broker (simulate P (mirror_broker b) (map fneg zs))
       = map mirror_broker (map step_broker (simulate P b zs)).
Proof.
  intros He. induction zs as [|z zs IH]; intros b; [split; reflexivity|].
  cbn [map simulate transitions step_calls step_broker].
  rewrite (next_mirror P b z He), broker_next_mirror.
  destruct (IH (broker_next b (next P b z))) as [IH1 IH2].
  unfold transitions in IH1. rewrite IH1, IH2. split; reflexivity.
Qed.

(** * Further properties of the signal engine *)

(** ** Lengths and entries of the arrays *)

Lemma length_map2 {A B C : Type} (f : A -> B -> C) (xs : list A) :
  forall ys, length (map2 f xs ys) = Nat.min (length xs) (length ys).
Proof.
  induction xs as [|x xs IH]; intros [|y ys]; cbn; try reflexivity.
  now rewrite IH.
Qed.

Lemma nth_error_map2 {A B C : Type} (f : A -> B -> C) (xs : list A) :
  forall ys t x y,
    nth_error xs t = Some x -> nth_error ys t = Some y ->
    nth_error (map2 f xs ys) t = Some (f x y).
Proof.
  induction xs as [|x0 xs IH]; intros [|y0 ys] [|t] x y Hx Hy; cbn in *;
    try discriminate.
  - congruence.
  - now apply IH.
Qed.

Lemma length_rolling (L : nat) (agg : list Q -> fval) (series : list Q) :
  length (rolling L agg series) = length series.
Proof. unfold rolling. now rewrite length_map, length_seq. Qed.

(** ** [init]: the arrays and the bands *)

Section EngineMore.

Variable sqrtQ : Q -> Q.

Lemma init_nth_error (P : Params) (close : list Q) (t : nat) :
  (t < length close)%nat ->
  let s := init sqrtQ P close in
  let m := rolling_at (lookback P) window_mean close t in
  let d := rolling_at (lookback P) (window_std sqrtQ) close t in
  nth_error (rolling_mean s) t = Some m
  /\ nth_error (rolling_std s) t = Some d
  /\ nth_error (z_scores s) t = Some (fdiv (fsub (Fin (nth t close 0)) m) d)
  /\ nth_error (upper_band s) t = Some (fadd m (fmul (Fin (entry_z P)) d))
  /\ nth_error (lower_band s) t = Some (fsub m (fmul (Fin (entry_z P)) d)).
Proof.
  intros Ht s m d.
  assert (Hm : nth_error (rolling_mean s) t = Some m)
    by (apply rolling_nth_error_at; exact Ht).
  assert (Hd : nth_error (rolling_std s) t = Some d)
    by (apply rolling_nth_error_at; exact Ht).
  assert (Hb : nth_error (map (fmul (Fin (entry_z P))) (rolling_std s)) t
               = Some (fmul (Fin (entry_z P)) d))
    by (rewrite nth_error_map, Hd; reflexivity).
  split; [exact Hm|]. split; [exact Hd|]. split; [|split].
  - subst s. rewrite init_z_scores, nth_error_map, nth_error_seq.
    destruct (Nat.ltb_spec t (length close)); [reflexivity | lia].
  - apply nth_error_map2; assumption.
  - apply nth_error_map2; assumption.
Qed.

(** X9.  Every array [init] stores has one entry per bar of the series. *)
Theorem signals_have_series_length (P : Params) (close : list Q) :
  let s := init sqrtQ P close in
  length (rolling_mean s) = length close
  /\ length (rolling_std s) = length close
  /\ length (z_scores s) = length close
  /\ length (upper_band s) = length close
  /\ length (lower_band s) = length close.
Proof.
  intros s. subst s. unfold init, SMA.
  cbn [rolling_mean rolling_std z_scores upper_band lower_band].
  rewrite !length_map2, !length_map, !length_rolling, !Nat.min_id.
  repeat split.
Qed.

Section NonNegative.

Hypothesis sqrt_nonneg : forall x : Q, 0 <= x -> 0 <= sqrtQ x.

Lemma window_std_nonneg (w : list Q) (sd : Q) :
  window_std sqrtQ w = Fin sd -> 0 <= sd.
Proof.
  intros H. destruct (window_std_cases sqrtQ w) as [[_ E]|[Hl E]];
    rewrite E in H; [discriminate|].
  injection H as <-. apply sqrt_nonneg.
  pose proof (ssq_nonneg (sumQ w / Qnat (length w)) w).
  pose proof (Qnat_gt_1 (length w) Hl).
  apply Qle_shift_div_l; [assumption | lra].
Qed.

(** X10.  The bands sit at [entry_z] standard deviations on either side of the
    moving average wherever both are defined, the standard deviation is never
    negative, so with a non-negative [entry_z] the lower band is below and the
    upper band above the average; and where the standard deviation is not
    available neither band is. *)
Theorem bands_around_mean (P : Params) (close : list Q) (t : nat) :
  let s := init sqrtQ P close in
  (forall m sd,
      nth_error (rolling_mean s) t = Some (Fin m) ->
      nth_error (rolling_std s) t = Some (Fin sd) ->
      nth_error (upper_band s) t = Some (Fin (m + entry_z P * sd))
      /\ nth_error (lower_band s) t = Some (Fin (m + - (entry_z P * sd)))
      /\ 0 <= sd
      /\ (0 <= entry_z P ->
          m + - (entry_z P * sd) <= m /\ m <= m + entry_z P * sd))
  /\ (nth_error (rolling_std s) t = Some NaN ->
      nth_error (upper_band s) t = Some NaN
      /\ nth_error (lower_band s) t = Some NaN).
Proof.
  intros s. split.
  - intros m sd Hm Hsd.
    assert (Ht : (t < length close)%nat).
    { subst s. cbn [init rolling_mean] in Hm. unfold SMA in Hm.
      apply rolling_nth_error in Hm. tauto. }
    destruct (init_nth_error P close t Ht) as (Em & Ed & _ & Eu & El).
    fold s in Em, Ed, Eu, El.
    rewrite Em in Hm. injection Hm as Hm. rewrite Ed in Hsd. injection Hsd as Hsd.
    rewrite Hm, Hsd in Eu, El.
    assert (H0 : 0 <= sd).
    { unfold rolling_at in Hsd. destruct (lookback P <=? S t)%nat; [|discriminate].
      exact (window_std_nonneg _ sd Hsd). }
    split; [exact Eu|]. split; [exact El|]. split; [exact H0|].
    intros He. pose proof (Qmult_le_0_compat _ _ He H0). split; lra.
  - intros Hsd.
    assert (Ht : (t < length close)%nat).
    { subst s. cbn [init rolling_std] in Hsd. apply rolling_nth_error in Hsd. tauto. }
    destruct (init_nth_error P close t Ht) as (_ & Ed & _ & Eu & El).
    fold s in Ed, Eu, El. rewrite Ed in Hsd. injection Hsd as Hsd.
    rewrite Hsd in Eu, El.
    destruct (rolling_at (lookback P) window_mean close t);
      split; assumption.
Qed.

End NonNegative.

End EngineMore.

Lemma sqrt_approx_nonneg (x : Q) : 0 <= x -> 0 <= sqrt_approx x.
Proof.
  intros _. unfold sqrt_approx, Qle. cbn.
  pose proof (Z.sqrt_nonneg
                (Qnum (Qred x) * Z.pos (Qden (Qred x)) * 1000000000000)). lia.
Qed.

(** ** Instances of the further properties on concrete inputs *)

Lemma next_never_adds_to_position_witness :
  is_long [LongSide] = true
  /\ ~ In StrategyBuy (next default_params [LongSide] (Fin (-3))).
Proof.
  assert (Hl : is_long [LongSide] = true) by reflexivity.
  split; [exact Hl|].
  exact (proj1 (next_never_adds_to_position default_params [LongSide] (Fin (-3))) Hl).
Defined.

Lemma position_held_until_exit_witness :
  0 <= entry_z default_params + exit_z default_params
  /\ is_long [LongSide] = true
  /\ Forall (fun z => fge z (Fin (- exit_z default_params)) = false)
            [Fin (-1); NaN]
  /\ fge (Fin 0) (Fin (- exit_z default_params)) = true
  /\ transitions (simulate default_params [LongSide]
                           ([Fin (-1); NaN] ++ Fin 0 :: [Fin 3]))
     = repeat [] (length [Fin (-1); NaN])
       ++ [PositionClose] :: transitions (simulate default_params [] [Fin 3]).
Proof.
  assert (H1 : 0 <= entry_z default_params + exit_z default_params)
    by (vm_compute; discriminate).
  assert (H2 : is_long [LongSide] = true) by reflexivity.
  assert (H3 : Forall (fun z => fge z (Fin (- exit_z default_params)) = false)
                      [Fin (-1); NaN])
    by (repeat (constructor; [reflexivity|]); constructor).
  assert (H4 : fge (Fin 0) (Fin (- exit_z default_params)) = true) by reflexivity.
  split; [exact H1|]. split; [exact H2|]. split; [exact H3|]. split; [exact H4|].
  exact (proj1 (position_held_until_exit default_params [LongSide]
                  [Fin (-1); NaN] (Fin 0) [Fin 3] H1) H2 H3 H4).
Defined.

Lemma long_short_symmetry_witness :
  0 < entry_z default_params
  /\ transitions (simulate default_params (mirror_broker [])
                           (map fneg [Fin (-3); Fin (-1); NaN; Fin 0; Fin 3]))
     = map (map mirror_call)
           (transitions (simulate default_params []
                           [Fin (-3); Fin (-1); NaN; Fin 0; Fin 3])).
Proof.
  assert (H : 0 < entry_z default_params) by (vm_compute; reflexivity).
  split; [exact H|].
  exact (proj1 (long_short_symmetry default_params
                  [Fin (-3); Fin (-1); NaN; Fin 0; Fin 3] H [])).
Defined.

Lemma bands_around_mean_witness :
  (forall x : Q, 0 <= x -> 0 <= sqrt_approx x)
  /\ nth_error (rolling_mean (init sqrt_approx small_params flat_then_drop)) 4
     = Some (Fin (270 # 3))
  /\ nth_error (rolling_std (init sqrt_approx small_params flat_then_drop)) 4
     = Some (Fin (17320508 # 1000000))
  /\ nth_error (upper_band (init sqrt_approx small_params flat_then_drop)) 4
     = Some (Fin ((270 # 3) + entry_z small_params * (17320508 # 1000000)))
  /\ nth_error (lower_band (init sqrt_approx small_params flat_then_drop)) 4
     = Some (Fin ((270 # 3) + - (entry_z small_params * (17320508 # 1000000)))).
Proof.
  assert (H1 : nth_error (rolling_mean (init sqrt_approx small_params flat_then_drop)) 4
               = Some (Fin (270 # 3))) by (vm_compute; reflexivity).
  assert (H2 : nth_error (rolling_std (init sqrt_approx small_params flat_then_drop)) 4
               = Some (Fin (17320508 # 1000000))) by (vm_compute; reflexivity).
  split; [exact sqrt_approx_nonneg|]. split; [exact H1|]. split; [exact H2|].
  destruct (proj1 (bands_around_mean sqrt_approx sqrt_approx_nonneg small_params
                     flat_then_drop 4) (270 # 3) (17320508 # 1000000) H1 H2)
    as (Hu & Hl & _).
  split; [exact Hu | exact Hl].
Defined.


(** X2.  Hysteresis.  With [exit_z < entry_z] and [0 <= entry_z + exit_z],
    a z-score on which [next] buys makes [next] hold on every long position,
    and one on which it sells makes it hold on every short position: the
    signal that opens a position does not close it once the position is
    there. *)
Theorem entry_signal_does_not_exit (P : Params) (b b' : Broker) (z : fval) :
  exit_z P < entry_z P ->
  0 <= entry_z P + exit_z P ->
  (In StrategyBuy (next P b z) -> is_long b' = true -> next P b' z = [])
  /\ (In StrategySell (next P b z) -> is_short b' = true -> next P b' z = []).
Proof.
  intros Hxe Hsum.
  destruct (next_cases P b z) as [| |_ _ Hz|_ _ _ Hz|]; cbn [In];
    split; intros Hin Hb'; try (exfalso; intuition discriminate).
  - rewrite (next_long P b' z Hb').
    rewrite (fge_false_below z (- entry_z P) (- exit_z P)) by (lra || exact Hz).
    rewrite (fge_false_below z (- entry_z P) (entry_z P)) by (lra || exact Hz).
    reflexivity.
  - rewrite (next_short P b' z Hb').
    rewrite (fle_false_above z (exit_z P) (entry_z P)) by (lra || exact Hz).
    rewrite (fle_false_above z (- entry_z P) (entry_z P)) by (lra || exact Hz).
    reflexivity.
Qed.

Lemma entry_signal_does_not_exit_witness :
  exit_z default_params < entry_z default_params
  /\ 0 <= entry_z default_params + exit_z default_params
  /\ In StrategyBuy (next default_params [] (Fin (-3)))
  /\ is_long [LongSide] = true
  /\ next default_params [LongSide] (Fin (-3)) = [].
Proof.
  assert (H1 : exit_z default_params < entry_z default_params)
    by (vm_compute; reflexivity).
  assert (H2 : 0 <= entry_z default_params + exit_z default_params)
    by (vm_compute; discriminate).
  assert (H3 : In StrategyBuy (next default_params [] (Fin (-3))))
    by (left; reflexivity).
  assert (H4 : is_long [LongSide] = true) by reflexivity.
  split; [exact H1|]. split; [exact H2|]. split; [exact H3|]. split; [exact H4|].
  exact (proj1 (entry_signal_does_not_exit default_params [] [LongSide]
                  (Fin (-3)) H1 H2) H3 H4).
Defined.

(** * The z-score line on the indicators as they come *)

Lemma init_signals_of (sqrtQ : Q -> Q) (P : Params) (close : list Q) :
  init sqrtQ P close
  = signals_of P close (SMA close (lookback P))
               (rolling (lookback P) (window_std sqrtQ) close).
Proof. reflexivity. Qed.

Lemma z_scores_of_nth_error (close : list Q) (means stds : list fval)
  (t : nat) (c : Q) (m sd : fval) :
  nth_error close t = Some c ->
  nth_error means t = Some m ->
  nth_error stds t = Some sd ->
  nth_error (z_scores_of close means stds) t = Some (z_score c m sd).
Proof.
  intros Hc Hm Hsd. unfold z_scores_of, z_score.
  apply nth_error_map2; [|exact Hsd].
  apply nth_error_map2; [|exact Hm].
  rewrite nth_error_map, Hc. reflexivity.
Qed.

Lemma z_score_nan (c : Q) (m sd : fval) :
  m = NaN \/ sd = NaN
  \/ (exists m' s', m = Fin m' /\ sd = Fin s' /\ c == m' /\ s' == 0) ->
  z_score c m sd = NaN.
Proof.
  unfold z_score. intros [->|[->|(m' & s' & -> & -> & Hc & Hs)]].
  - reflexivity.
  - apply fdiv_nan_r.
  - cbn [fsub fneg fadd]. apply fdiv_zero_zero; [lra | exact Hs].
Qed.

Lemma Qsign_gt (q : Q) : 0 < q -> Qsign q = Gt.
Proof. intros H. unfold Qsign. now apply Qgt_alt. Qed.

Lemma Qsign_lt (q : Q) : q < 0 -> Qsign q = Lt.
Proof. intros H. unfold Qsign. now apply Qlt_alt. Qed.

(** C3, as the code has it.  Whenever the z-score of a bar is [NaN], [next]
    makes no call and the broker and the position are left as they were, on
    every broker state.  The z-score is [NaN] wherever the rolling mean or the
    rolling standard deviation is [NaN], hence at every bar before
    [lookback - 1], and where the standard deviation is zero and the close
    equals the mean ([0/0]).  A zero standard deviation with a close that
    differs from the mean is not among these cases. *)
Theorem nan_z_holds (P : Params) :
  (forall (close : list Q) (means stds : list fval) (t : nat) (c : Q)
          (m sd : fval),
      nth_error close t = Some c ->
      nth_error means t = Some m ->
      nth_error stds t = Some sd ->
      m = NaN \/ sd = NaN
      \/ (exists m' s', m = Fin m' /\ sd = Fin s' /\ c == m' /\ s' == 0) ->
      nth_error (z_scores_of close means stds) t = Some NaN)
  /\ (forall (sqrtQ : Q -> Q) (close : list Q) (t : nat) (z : fval),
        nth_error (z_scores (init sqrtQ P close)) t = Some z ->
        (S t < lookback P)%nat ->
        z = NaN)
  /\ (forall b : Broker,
        next P b NaN = []
        /\ broker_next b (next P b NaN) = b
        /\ position_of (broker_next b (next P b NaN)) = position_of b).
Proof.
  split; [|split].
  - intros close means stds t c m sd Hc Hm Hsd Hcause.
    rewrite (z_scores_of_nth_error close means stds t c m sd Hc Hm Hsd).
    now rewrite (z_score_nan c m sd Hcause).
  - intros sqrtQ close t z Hz Ht.
    apply z_scores_nth_error in Hz as [_ Hz]. rewrite <- Hz.
    now apply z_at_before_window.
  - intros b. rewrite next_nan. repeat split.
Qed.

(** C3, as the specification words it, fails where the standard deviation
    is zero and the close is not the mean.  On [underflow_window] with a
    lookback of two the squared deviations are below [underflow_bound], so the
    rolling standard deviation of bar 1 is 0.0; line 30 divides by it and
    gives plus infinity, on which [next] sells: the position goes from flat to
    short on a bar whose standard deviation is zero. *)
Lemma zero_std_transition :
  Forall (fun x => sq_dev (sumQ underflow_window / Qnat 2) x < underflow_bound)
         underflow_window
  /\ nth_error (z_scores_of underflow_window
                            [NaN; window_mean underflow_window] [NaN; Fin 0]) 1
     = Some PInf
  /\ next default_params [] PInf = [StrategySell]
  /\ position_of [] = Flat
  /\ position_of (broker_next [] (next default_params [] PInf)) = Short.
Proof.
  split.
  - repeat (constructor; [vm_compute; reflexivity|]). constructor.
  - split; [vm_compute; reflexivity|]. repeat split.
Qed.

(** C10, as the code has it.  When the rolling standard deviation is zero,
    the division gives [0/0 = NaN] only if the close equals the rolling mean;
    if the close is above the mean it gives plus infinity and if it is below,
    minus infinity.  [NaN] passes no comparison, but an infinity does: plus
    infinity is at or above every threshold and minus infinity at or below,
    so from a flat position [next] sells on the one and buys on the other. *)
Theorem zero_std_division (c m s : Q) :
  s == 0 ->
  (c == m -> z_score c (Fin m) (Fin s) = NaN)
  /\ (m < c -> z_score c (Fin m) (Fin s) = PInf)
  /\ (c < m -> z_score c (Fin m) (Fin s) = NInf)
  /\ (forall a : Q,
        fge PInf (Fin a) = true /\ fle NInf (Fin a) = true
        /\ fge NaN (Fin a) = false /\ fle NaN (Fin a) = false)
  /\ (forall P : Params,
        next P [] PInf = [StrategySell] /\ next P [] NInf = [StrategyBuy]
        /\ next P [] NaN = []).
Proof.
  intros Hs. apply Qsign_eq in Hs.
  unfold z_score. cbn [fsub fneg fadd fdiv]. rewrite Hs.
  split; [|split; [|split; [|split]]].
  - intros H. assert (E : c + - m == 0) by lra.
    apply Qsign_eq in E. now rewrite E.
  - intros H. now rewrite (Qsign_gt (c + - m)) by lra.
  - intros H. now rewrite (Qsign_lt (c + - m)) by lra.
  - intros a. repeat split.
  - intros P. repeat split.
Qed.

(** C10, as stated, fails on [underflow_window]: the rolling standard
    deviation of bar 1 is zero (the squared deviations are below
    [underflow_bound]) although the close of the bar is not the mean of the
    window; the numerator is not zero, the z-score is plus infinity, and it
    passes the entry comparison [z >= entry_z]. *)
Lemma zero_std_infinite_z :
  Forall (fun x => sq_dev (sumQ underflow_window / Qnat 2) x < underflow_bound)
         underflow_window
  /\ window_mean underflow_window = Fin (sumQ underflow_window / Qnat 2)
  /\ ~ nth 1 underflow_window 0 - sumQ underflow_window / Qnat 2 == 0
  /\ z_score (nth 1 underflow_window 0) (window_mean underflow_window) (Fin 0)
     = PInf
  /\ fge PInf (Fin (entry_z default_params)) = true.
Proof.
  split.
  - repeat (constructor; [vm_compute; reflexivity|]). constructor.
  - split; [reflexivity|]. split; [|split; [vm_compute; reflexivity | reflexivity]].
    intros H. vm_compute in H. discriminate.
Qed.

(** * Properties of the run *)

Section RunFacts.

Variable sqrtQ : Q -> Q.

Lemma init_call_array (P : Params) (xs : list Q) :
  init_call sqrtQ P (NdArray xs) = inl RuntimeError.
Proof. reflexivity. Qed.

Lemma init_call_series (P : Params) (xs : list Q) :
  init_call sqrtQ P (PdSeries xs) = inr (init sqrtQ P xs).
Proof. reflexivity. Qed.

Lemma run_backtest_cases (P : Params) (data : option (list Q)) :
  run_backtest sqrtQ P data
  = inl (match data with
         | None | Some [] => PreconditionFailure
         | Some (_ :: _) => RuntimeError
         end).
Proof. destruct data as [[|x close]|]; reflexivity. Qed.

(** C5.  A missing or empty price series is refused when the backtest is
    constructed: [run_backtest] ends with the constructor's failure, before
    [init] is reached, for any parameters. *)
Theorem empty_series_rejected (P : Params) :
  Backtest None = inl PreconditionFailure
  /\ Backtest (Some []) = inl PreconditionFailure
  /\ run_backtest sqrtQ P None = inl PreconditionFailure
  /\ run_backtest sqrtQ P (Some []) = inl PreconditionFailure.
Proof. repeat split. Qed.

(** C4, as the code has it.  No parameter is validated and there is no
    configuration error: whatever the lookback and the thresholds, the run
    ends as it does for any other parameters.  Nothing is clamped either:
    from a flat position the strategy buys exactly when [z <= - entry_z], an
    open long is closed exactly when [z >= - exit_z], an open short exactly
    when [z <= exit_z], whatever the sign of the thresholds, and with a
    lookback below two every z-score [init] computes is undefined. *)
Theorem parameters_used_unchecked (P : Params) :
  (forall (P' : Params) (data : option (list Q)),
      run_backtest sqrtQ P data = run_backtest sqrtQ P' data)
  /\ (forall q : Q, next P [] (Fin q) = [StrategyBuy] <-> q <= - entry_z P)
  /\ (forall q : Q,
        next P [LongSide] (Fin q) = [PositionClose] <-> - exit_z P <= q)
  /\ (forall q : Q,
        next P [ShortSide] (Fin q) = [PositionClose] <-> q <= exit_z P)
  /\ ((lookback P < 2)%nat ->
      forall close : list Q,
        Forall (fun z => z = NaN) (z_scores (init sqrtQ P close))).
Proof.
  split; [|split; [|split; [|split]]].
  - intros P' data. now rewrite !run_backtest_cases.
  - intros q. rewrite next_flat_fin, <- Qle_bool_iff.
    destruct (Qle_bool q (- entry_z P)); [tauto|].
    destruct (Qle_bool (entry_z P) q); split; discriminate.
  - intros q. unfold next, fge, fle. change (is_long [LongSide]) with true.
    change (is_short [LongSide]) with false. cbn [andb negb].
    rewrite <- Qle_bool_iff, !andb_false_r.
    destruct (Qle_bool (- exit_z P) q); [tauto|].
    destruct (Qle_bool (entry_z P) q); split; discriminate.
  - intros q. unfold next, fge, fle. change (is_long [ShortSide]) with false.
    change (is_short [ShortSide]) with true. cbn [andb negb].
    rewrite <- Qle_bool_iff, !andb_false_r, !andb_true_r.
    destruct (Qle_bool q (exit_z P)); [tauto|].
    destruct (Qle_bool q (- entry_z P)); split; discriminate.
  - intros HL close. rewrite init_z_scores. apply Forall_map, Forall_forall.
    intros t Ht. apply in_seq in Ht. apply z_at_short_lookback; [exact HL | lia].
Qed.

(** X14.  The program never completes a run.  On the library's arrays the
    indicator of line 26 fails, [SMA] asking an array for [rolling], while
    the one of line 27, which wraps its argument in [pd.Series], would not;
    so [run_backtest] on any non-empty series ends with the RuntimeError of
    [init] and [next] is not called.  Given a pandas series, [init] stores
    the five arrays. *)
Theorem run_backtest_never_completes (P : Params) :
  (forall (x : Q) (close : list Q),
      run_backtest sqrtQ P (Some (x :: close)) = inl RuntimeError)
  /\ (forall xs : list Q,
        Strategy_I (SMA_call (NdArray xs) (lookback P)) = inl RuntimeError
        /\ Strategy_I (std_call sqrtQ (lookback P) (NdArray xs))
           = inr (rolling (lookback P) (window_std sqrtQ) xs))
  /\ (forall xs : list Q,
        init_call sqrtQ P (PdSeries xs) = inr (init sqrtQ P xs)).
Proof. repeat split. Qed.

End RunFacts.

(** C4, as the specification words it, fails: with a negative entry
    threshold and a zero exit threshold the run ends exactly as with the
    default parameters, with the RuntimeError of the first indicator, which
    is no report on the configuration; and [next] acts on such thresholds,
    buying from flat at [z = 1/2]. *)
Lemma invalid_parameters_not_reported :
  invalid_params negative_entry_params = true
  /\ invalid_params default_params = false
  /\ run_backtest sqrt_approx negative_entry_params (Some wobble)
     = inl RuntimeError
  /\ run_backtest sqrt_approx default_params (Some wobble) = inl RuntimeError
  /\ next negative_entry_params [] (Fin (1 # 2)) = [StrategyBuy].
Proof. repeat split. Qed.

(** ** Instances on concrete inputs *)

Lemma nan_z_holds_witness :
  nth_error wobble 4 = Some 102
  /\ nth_error [NaN; NaN; NaN; NaN; Fin 102] 4 = Some (Fin 102)
  /\ nth_error [NaN; NaN; NaN; NaN; Fin 0] 4 = Some (Fin 0)
  /\ 102 == 102 /\ 0 == 0
  /\ nth_error (z_scores_of wobble [NaN; NaN; NaN; NaN; Fin 102]
                            [NaN; NaN; NaN; NaN; Fin 0]) 4 = Some NaN
  /\ next small_params [LongSide] NaN = [].
Proof.
  assert (H1 : nth_error wobble 4 = Some 102) by reflexivity.
  assert (H2 : nth_error [NaN; NaN; NaN; NaN; Fin 102] 4 = Some (Fin 102))
    by reflexivity.
  assert (H3 : nth_error [NaN; NaN; NaN; NaN; Fin 0] 4 = Some (Fin 0))
    by reflexivity.
  assert (H4 : 102 == 102) by reflexivity.
  assert (H5 : 0 == 0) by reflexivity.
  split; [exact H1|]. split; [exact H2|]. split; [exact H3|].
  split; [exact H4|]. split; [exact H5|].
  split.
  - exact (proj1 (nan_z_holds small_params) wobble _ _ 4%nat 102 (Fin 102) (Fin 0)
             H1 H2 H3
             (or_intror (or_intror
                (ex_intro _ 102 (ex_intro _ 0
                   (conj eq_refl (conj eq_refl (conj H4 H5)))))))).
  - exact (proj1 (proj2 (proj2 (nan_z_holds small_params)) [LongSide])).
Defined.

Lemma zero_std_division_witness :
  0 # 1000000 == 0
  /\ 100 == 200 # 2
  /\ z_score 100 (Fin (200 # 2)) (Fin (0 # 1000000)) = NaN
  /\ 100 < 103
  /\ z_score 103 (Fin 100) (Fin (0 # 1000000)) = PInf.
Proof.
  assert (H0 : 0 # 1000000 == 0) by reflexivity.
  assert (H1 : 100 == 200 # 2) by reflexivity.
  assert (H2 : 100 < 103) by reflexivity.
  split; [exact H0|]. split; [exact H1|].
  split; [exact (proj1 (zero_std_division 100 (200 # 2) (0 # 1000000) H0) H1)|].
  split; [exact H2|].
  exact (proj1 (proj2 (zero_std_division 103 100 (0 # 1000000) H0)) H2).
Defined.

Lemma parameters_used_unchecked_witness :
  (lookback (mkParams 1 2 (1 # 2)) < 2)%nat
  /\ Forall (fun z => z = NaN)
            (z_scores (init sqrt_approx (mkParams 1 2 (1 # 2)) wobble))
  /\ run_backtest sqrt_approx negative_entry_params (Some wobble)
     = run_backtest sqrt_approx default_params (Some wobble).
Proof.
  assert (HL : (lookback (mkParams 1 2 (1 # 2)) < 2)%nat) by (cbn; lia).
  split; [exact HL|].
  split.
  - destruct (parameters_used_unchecked sqrt_approx (mkParams 1 2 (1 # 2)))
      as (_ & _ & _ & _ & Hz).
    exact (Hz HL wobble).
  - exact (proj1 (parameters_used_unchecked sqrt_approx negative_entry_params)
                 default_params (Some wobble)).
Defined.
